(** * sc-discovery: the HTTP tracker's registry, expiry timers and request handler

    A shallow embedding of the tracker script (the second script of
    [src/examples/udp/consumer.js], from the [#!/usr/bin/env node] line on):
    the two module-level tables [services] and [timeoutTimerIds], the bind-error
    handler, [bufferRequest], [handleRequest], [sendError] and [updateServices],
    followed by the properties the specification states about them.

    Modelling conventions.
    - JavaScript values are the inductive [value]; objects are finite maps from
      property names to values ([gmap string value]).  Property names are own
      property keys: the prototype chain is not modelled.  An assignment to
      the name [__proto__] of one of the two tables goes through the accessor
      of [Object.prototype] and stores no own property, so what is stated
      below about the entry of a name is stated for the names other than
      [__proto__].
    - The tracker never holds two references to one mutable object that it
      later mutates through both: a descriptor is written to [services] from
      the request that is then dropped, and the timer callback reaches the
      descriptor through [services[name]] again.  Values are therefore
      threaded without a heap.
    - Statements that can throw live in the state-and-exception monad [M]; an
      exception that leaves [handleRequest] or a timer callback is uncaught and
      ends the process.
    - [JSON.parse] and [JSON.stringify] belong to the runtime and are
      parameters of the model (class [runtime]).  The snapshot is taken to
      serialize: a registry nested too deep for the serializer of the runtime
      is outside the model.
    - Timers are the runtime's: a delay outside 1 .. 2^31 - 1 milliseconds is
      replaced by one millisecond ([timer_delay]).
    - The calls of [debug] write log lines and are left out. *)

From Stdlib Require Import ZArith String Ascii List PrimFloat Lia.
From stdpp Require Import base option list gmap strings pretty.

#[local] Set Warnings "-register-all".
#[local] Open Scope string_scope.

(** ** JavaScript values *)

(** Numbers are IEEE 754 doubles; the tracker never computes with the numbers
    of a descriptor.  An array carries its elements and the named properties
    assigned to it. *)
Inductive value : Type :=
| VUndefined
| VNull
| VBool (b : bool)
| VNum (x : float)
| VStr (s : string)
| VArr (elems : list value) (props : gmap string value)
| VObj (props : gmap string value).

Inductive exn : Type :=
| TypeError
| SyntaxError.

(** The script has no ['use strict'] directive of its own (the directive on the
    first line of the file belongs to the example script before the
    separator); the mode is kept as a parameter so that nothing below depends
    on that reading. *)
Inductive mode : Type :=
| Sloppy
| Strict.

(** [typeof v] *)
Definition typeof (v : value) : string :=
  match v with
  | VUndefined => "undefined"
  | VNull => "object"
  | VBool _ => "boolean"
  | VNum _ => "number"
  | VStr _ => "string"
  | VArr _ _ => "object"
  | VObj _ => "object"
  end.

(** The array index a property name denotes, among the [n] first indices. *)
Definition array_index (name : string) (n : nat) : option nat :=
  find (λ i, bool_decide (pretty i = name)) (seq 0 n).

(** [o[name]] for a name the tracker reads: own properties of objects, elements
    and named properties of arrays.  Reading a property of [null] or
    [undefined] throws; a primitive has no own property of the names read
    here. *)
Definition get (o : value) (name : string) : exn + value :=
  match o with
  | VUndefined | VNull => inl TypeError
  | VObj props => inr (default VUndefined (props !! name))
  | VArr elems props =>
      match array_index name (length elems) with
      | Some i => inr (default VUndefined (elems !! i))
      | None => inr (default VUndefined (props !! name))
      end
  | VBool _ | VNum _ | VStr _ => inr VUndefined
  end.

(** [o.name = v] for the two names the tracker writes ([rinfo], [available]),
    neither of which is an array index.  Writing to [null] or [undefined]
    throws; writing to a primitive is dropped silently in sloppy mode and
    throws in strict mode. *)
Definition set_prop (md : mode) (o : value) (name : string) (v : value) : exn + value :=
  match o with
  | VUndefined | VNull => inl TypeError
  | VObj props => inr (VObj (<[name := v]> props))
  | VArr elems props => inr (VArr elems (<[name := v]> props))
  | VBool _ | VNum _ | VStr _ =>
      match md with
      | Sloppy => inr o
      | Strict => inl TypeError
      end
  end.

(** [Object.keys(o)]: index names of an array first, then named properties.
    A non-object argument throws (ES5).  The keys of an object come in the
    order of the finite map, which need not be the order in which the runtime
    enumerates them; the lemmas about the [forEach] of [updateServices] are
    stated for an arbitrary list of names. *)
Definition Object_keys (o : value) : exn + list string :=
  match o with
  | VObj props => inr (map_to_list props).*1
  | VArr elems props => inr ((pretty <$> seq 0 (length elems)) ++ (map_to_list props).*1)%list
  | _ => inl TypeError
  end.

(** [String.prototype.toUpperCase] on the ASCII letters of an HTTP method token. *)
Definition upper_ascii (c : ascii) : ascii :=
  let n := nat_of_ascii c in
  if Nat.leb 97 n && Nat.leb n 122 then ascii_of_nat (n - 32) else c.

Fixpoint toUpperCase (s : string) : string :=
  match s with
  | EmptyString => EmptyString
  | String c s' => String (upper_ascii c) (toUpperCase s')
  end.

(** ** Configuration ([rc]) *)

(** [timeout] and [retryBind] are numbers of milliseconds; [0] is their falsy
    setting. *)
Record options : Type := {
  port : Z;
  hostname : string;
  timeout : Z;
  retryBind : Z;
  help : bool
}.

Definition truthy (n : Z) : bool := negb (n =? 0)%Z.

(** ** Tracker state *)

(** A timer the runtime holds pending: its handle, the time from which it may
    fire, and the [name] its callback closes over. *)
Record timer : Type := {
  timer_id : nat;
  deadline : Z;
  timer_name : string
}.

(** [services] and [timeoutTimerIds] are the script's two tables; a slot of
    [timeoutTimerIds] holds a timer handle ([Some id]) or [null] ([None]).
    [timers], [next_timer] and [now] are the runtime's: the pending timers, the
    supply of fresh handles and the clock. *)
Record tracker : Type := {
  services : gmap string value;
  timeoutTimerIds : gmap string (option nat);
  timers : list timer;
  next_timer : nat;
  now : Z
}.

Definition init : tracker :=
  {| services := ∅; timeoutTimerIds := ∅; timers := []; next_timer := 1; now := 0 |}.

Definition with_services (f : gmap string value → gmap string value) (st : tracker) : tracker :=
  {| services := f (services st); timeoutTimerIds := timeoutTimerIds st;
     timers := timers st; next_timer := next_timer st; now := now st |}.

Definition with_timeoutTimerIds (f : gmap string (option nat) → gmap string (option nat))
    (st : tracker) : tracker :=
  {| services := services st; timeoutTimerIds := f (timeoutTimerIds st);
     timers := timers st; next_timer := next_timer st; now := now st |}.

Definition with_timers (f : list timer → list timer) (st : tracker) : tracker :=
  {| services := services st; timeoutTimerIds := timeoutTimerIds st;
     timers := f (timers st); next_timer := next_timer st; now := now st |}.

Definition with_now (t : Z) (st : tracker) : tracker :=
  {| services := services st; timeoutTimerIds := timeoutTimerIds st;
     timers := timers st; next_timer := next_timer st; now := t |}.

(** ** The state-and-exception monad *)

Inductive result (A : Type) : Type :=
| Ok (a : A) (st : tracker)
| Throw (e : exn) (st : tracker).
Arguments Ok {A} a st.
Arguments Throw {A} e st.

Definition M (A : Type) : Type := tracker → result A.

Definition ret {A} (a : A) : M A := λ st, Ok a st.

Definition bind {A B} (c : M A) (k : A → M B) : M B :=
  λ st, match c st with
        | Ok a st' => k a st'
        | Throw e st' => Throw e st'
        end.

Definition lift {A} (r : exn + A) : M A :=
  λ st, match r with
        | inl e => Throw e st
        | inr a => Ok a st
        end.

Definition gets {A} (f : tracker → A) : M A := λ st, Ok (f st) st.

Definition modify (f : tracker → tracker) : M unit := λ st, Ok tt (f st).

Notation "x <- c ;; k" := (bind c (λ x, k))
  (at level 100, c at next level, right associativity).
Notation "c ;;; k" := (bind c (λ _, k))
  (at level 100, right associativity).

(** [l.forEach(f)]: an exception thrown by [f] ends the iteration. *)
Fixpoint forEach {A} (f : A → M unit) (l : list A) : M unit :=
  match l with
  | [] => ret tt
  | x :: l' => f x ;;; forEach f l'
  end.

(** ** Timers of the runtime *)

(** The longest delay a timer takes: 2^31 - 1 milliseconds. *)
Definition TIMEOUT_MAX : Z := 2147483647.

(** The delay the runtime gives a timer asked for [delay] milliseconds
    ([if (!(after >= 1 && after <= TIMEOUT_MAX)) after = 1] in the runtime's
    [setTimeout]): a delay out of range becomes one millisecond. *)
Definition timer_delay (delay : Z) : Z :=
  if (1 <=? delay)%Z && (delay <=? TIMEOUT_MAX)%Z then delay else 1%Z.

(** [setTimeout(callback, delay)] for the expiry callback of [name]: the timer
    may fire from [timer_delay delay] milliseconds after the call. *)
Definition setTimeout (name : string) (delay : Z) : M nat :=
  λ st, Ok (next_timer st)
           {| services := services st; timeoutTimerIds := timeoutTimerIds st;
              timers := (timers st ++
                [{| timer_id := next_timer st;
                    deadline := (now st + timer_delay delay)%Z;
                    timer_name := name |}])%list;
              next_timer := S (next_timer st); now := now st |}.

(** [clearTimeout(id)] *)
Definition clearTimeout (id : nat) : M unit :=
  modify (with_timers (filter (λ tm, timer_id tm ≠ id))).

(** ** HTTP messages *)

(** How the body stream of a request ends: with ['end'], or with an ['error']
    event carrying the error. *)
Inductive stream_end : Type :=
| End
| Error (err : value).

(** What the handler reads of a request: [url], [method], the chunks of the
    body and [client.address()].  The latter, the field [client_address], is
    the address the socket of the connection is bound to, on the tracker's
    side of the connection. *)
Record request : Type := {
  url : string;
  method : string;
  chunks : list string;
  ending : stream_end;
  client_address : value
}.

Record ServerResponse : Type := {
  statusCode : Z;
  headers : list (string * string);
  body : string;
  finished : bool
}.

(** The response object the server hands to the handler. *)
Definition fresh_response : ServerResponse :=
  {| statusCode := 200; headers := []; body := ""; finished := false |}.

Definition set_statusCode (code : Z) (res : ServerResponse) : ServerResponse :=
  {| statusCode := code; headers := headers res; body := body res; finished := finished res |}.

(** [res.end(data)] *)
Definition res_end (data : option string) (res : ServerResponse) : ServerResponse :=
  {| statusCode := statusCode res; headers := headers res;
     body := body res +:+ default "" data; finished := true |}.

(** [http.STATUS_CODES], at the codes of the client-error class the tracker can send. *)
Definition STATUS_CODES (code : Z) : option string :=
  if (code =? 400)%Z then Some "Bad Request"
  else if (code =? 404)%Z then Some "Not Found"
  else None.

(** The arguments [bufferRequest] passes to its callback: [(null, buffer)] on
    ['end'], [(err)] alone on ['error'], which leaves [data] undefined. *)
Definition bufferRequest (req : request) : option value * option string :=
  let buffer := fold_left (λ buffer chunk, buffer +:+ chunk) (chunks req) "" in
  match ending req with
  | End => (None, Some buffer)
  | Error err => (Some err, None)
  end.

(** ** Events of the process *)

(** What the handler does with a failed [listen]: schedule another
    [server.listen(rc.port)] after [rc.retryBind] milliseconds, or print the
    error and leave the server unbound. *)
Inductive listen_action : Type :=
| RetryListen (delay : Z) (on_port : Z)
| ReportError (message : string).

(** The runtime runs one callback at a time: the callback of a request whose
    body stream has ended, or the callback of a pending timer, no earlier than
    its deadline.  Each event carries the time at which it runs. *)
Inductive event : Type :=
| Request (t : Z) (req : request)
| Fire (t : Z) (id : nat).


(** Where a schedule leaves the process: running, ended by an uncaught
    exception, or not a schedule the runtime can produce (time going back, a
    timer that is not pending or not yet due). *)
Inductive outcome : Type :=
| Alive (st : tracker)
| Crashed (e : exn) (st : tracker)
| Unscheduled.

Definition settle {A} (r : result A) : outcome :=
  match r with
  | Ok _ st => Alive st
  | Throw e st => Crashed e st
  end.

(** ** What the script is given *)

(** The mode the script runs in, its options [rc], and the JSON codec of the
    runtime. *)
Class runtime : Type := {
  md : mode;
  rc : options;
  JSON_parse : string → option value;
  JSON_stringify : value → string
}.

(** ** The tracker script *)

Section Tracker.

Context {R : runtime}.

(** *** Bind errors: [http.createServer().on('error', ...)] *)

Definition onError (err_code err_message : string) : listen_action :=
  if bool_decide (err_code = "EADDRINUSE") || truthy (retryBind rc)
  then RetryListen (retryBind rc) (port rc)
  else ReportError err_message.

(** *** [updateServices] *)

(** The callback given to [setTimeout] for [name]. *)
Definition onTimeout (name : string) : M unit :=
  (* timeoutTimerIds[name] = null; *)
  modify (with_timeoutTimerIds <[name := None]>) ;;;
  (* services[name].available = false; *)
  entry <- gets (λ st, default VUndefined (services st !! name)) ;;
  entry' <- lift (set_prop md entry "available" (VBool false)) ;;
  modify (with_services <[name := entry']>).

(** The body of the [forEach] in [updateServices], for one [name] of
    [reported = data.services]: the two tables are read and written at their
    own properties, which is what the script does for every [name] other than
    [__proto__]. *)
Definition updateService (reported rinfo : value) (name : string) : M unit :=
  (* services[name] = data.services[name]; *)
  descriptor <- lift (get reported name) ;;
  modify (with_services <[name := descriptor]>) ;;;
  (* services[name].rinfo = rinfo; *)
  entry <- gets (λ st, default VUndefined (services st !! name)) ;;
  entry' <- lift (set_prop md entry "rinfo" rinfo) ;;
  modify (with_services <[name := entry']>) ;;;
  (* if (!rc.timeout) return; *)
  if negb (truthy (timeout rc)) then ret tt else
  (* if (timeoutTimerIds[name]) clearTimeout(timeoutTimerIds[name]); *)
  pending <- gets (λ st, timeoutTimerIds st !! name) ;;
  match pending with
  | Some (Some id) => clearTimeout id
  | _ => ret tt
  end ;;;
  (* timeoutTimerIds[name] = setTimeout(..., rc.timeout); *)
  id <- setTimeout name (timeout rc) ;;
  modify (with_timeoutTimerIds <[name := Some id]>).

Definition updateServices (data rinfo : value) : M unit :=
  reported <- lift (get data "services") ;;
  names <- lift (Object_keys reported) ;;
  forEach (updateService reported rinfo) names.

(** *** [handleRequest] *)

Definition sendError (code : Z) (message : option string) (res : ServerResponse)
    : ServerResponse :=
  let message := match message with
                 | Some m => Some m
                 | None => STATUS_CODES code
                 end in
  res_end message (set_statusCode code res).

(** [JSON.parse(data)] at the callback's [data]; an undefined [data] is
    converted to the text [undefined], which is not JSON. *)
Definition parse_data (data : option string) : option value :=
  match data with
  | Some text => JSON_parse text
  | None => None
  end.

Definition handleRequest (req : request) (res : ServerResponse) : M ServerResponse :=
  let '(err, data) := bufferRequest req in
  if negb (bool_decide (url req = "/"))
     || negb (bool_decide (toUpperCase (method req) = "POST"))
  then ret (sendError 404 None res)
  else
    match parse_data data with
    | None => ret (sendError 400 None res)
    | Some data =>
        reported <- lift (get data "services") ;;
        (if bool_decide (typeof reported = "object")
         then updateServices data (client_address req)
         else ret tt) ;;;
        snapshot <- gets (λ st, VObj (services st)) ;;
        ret (res_end (Some (JSON_stringify snapshot)) (set_statusCode 200 res))
    end.

(** ** The event loop *)

Definition find_timer (id : nat) (st : tracker) : option timer :=
  find (λ tm, bool_decide (timer_id tm = id)) (timers st).

Definition step (st : tracker) (ev : event) : outcome :=
  match ev with
  | Request t req =>
      if bool_decide (now st ≤ t)%Z
      then settle (handleRequest req fresh_response (with_now t st))
      else Unscheduled
  | Fire t id =>
      match find_timer id st with
      | Some tm =>
          if bool_decide (now st ≤ t)%Z && bool_decide (deadline tm ≤ t)%Z
          then settle (onTimeout (timer_name tm)
                         (with_timers (filter (λ tm', timer_id tm' ≠ id)) (with_now t st)))
          else Unscheduled
      | None => Unscheduled
      end
  end.

Fixpoint run (st : tracker) (evs : list event) : outcome :=
  match evs with
  | [] => Alive st
  | ev :: evs' =>
      match step st ev with
      | Alive st' => run st' evs'
      | stopped => stopped
      end
  end.


(** ** Vocabulary of the properties *)

(** Values to which [set_prop] assigns without an exception. *)
Definition writable (v : value) : bool :=
  match v with
  | VUndefined | VNull => false
  | VObj _ | VArr _ _ => true
  | VBool _ | VNum _ | VStr _ =>
      match md with
      | Sloppy => true
      | Strict => false
      end
  end.

(** JSON objects and arrays: the values [typeof] calls objects, [null] apart. *)
Definition is_object (v : value) : bool :=
  match v with
  | VObj _ | VArr _ _ => true
  | _ => false
  end.

(** The timer part of [updateService] as a state transformer: cancel the
    handle in the slot of [name], arm a fresh timer, store its handle. *)
Definition rearm (name : string) (st : tracker) : tracker :=
  if truthy (timeout rc) then
    {| services := services st;
       timeoutTimerIds := <[name := Some (next_timer st)]> (timeoutTimerIds st);
       timers :=
         (match timeoutTimerIds st !! name with
          | Some (Some id) => filter (λ tm, timer_id tm ≠ id) (timers st)
          | _ => timers st
          end ++
          [{| timer_id := next_timer st; deadline := (now st + timer_delay (timeout rc))%Z;
              timer_name := name |}])%list;
       next_timer := S (next_timer st);
       now := now st |}
  else st.






(** The route test of [handleRequest], and the value its [JSON.parse] yields. *)
Definition routed (req : request) : bool :=
  bool_decide (url req = "/") && bool_decide (toUpperCase (method req) = "POST").

Definition decoded (req : request) : option value :=
  parse_data (bufferRequest req).2.

(** The names [handleRequest] hands to the [forEach] of [updateServices]. *)
Definition reported_names (req : request) : list string :=
  if routed req then
    match decoded req with
    | Some data =>
        match get data "services" with
        | inr reported =>
            if bool_decide (typeof reported = "object")
            then match Object_keys reported with
                 | inr names => names
                 | inl _ => []
                 end
            else []
        | inl _ => []
        end
    | None => []
    end
  else [].


(** A descriptor with one more named property, and the named properties of a
    descriptor. *)
Definition with_field (name : string) (x d : value) : value :=
  match d with
  | VObj props => VObj (<[name := x]> props)
  | VArr elems props => VArr elems (<[name := x]> props)
  | _ => d
  end.

Definition field (name : string) (d : value) : option value :=
  match d with
  | VObj props => props !! name
  | VArr _ props => props !! name
  | _ => None
  end.



End Tracker.

(** Numbers, strings and booleans: the descriptors that are no objects and
    not [null]. *)
Definition is_primitive (v : value) : bool :=
  match v with
  | VBool _ | VNum _ | VStr _ => true
  | _ => false
  end.

(** ** Start-up and binding *)

(** What one [listen] comes to: the server is bound (['listening']), or the
    attempt fails (['error'], with the error's code and message). *)
Inductive attempt : Type :=
| Bound
| Failed (err_code err_message : string).

(** What the script does at start-up, as the runtime sees it. *)
Inductive effect : Type :=
| ShowHelp
| Exit (status : Z)
| Listen (on_port : Z) (on_host : option string)
| SendReady
| Schedule (delay : Z)
| ConsoleError (message : string).

#[global] Instance effect_eq_dec : EqDecision effect.
Proof. solve_decision. Defined.

Section Startup.

Context {R : runtime}.

(** The ['listening'] and ['error'] handlers over the outcomes of the
    successive [listen] calls: [can_send] says whether [process.send] exists.
    A retry is [server.listen(rc.port)], without the host name. *)
Fixpoint bind_loop (can_send : bool) (attempts : list attempt) : list effect :=
  match attempts with
  | [] => []
  | Bound :: _ => if can_send then [SendReady] else []
  | Failed err_code err_message :: rest =>
      match onError err_code err_message with
      | RetryListen delay on_port =>
          Schedule delay :: Listen on_port None :: bind_loop can_send rest
      | ReportError message => [ConsoleError message]
      end
  end.

(** The top level of the script: [--help] prints the usage and exits with
    status 0 before anything is bound; otherwise the server is created and
    [listen(rc.port, rc.hostname)] is called. *)
Definition startup (can_send : bool) (attempts : list attempt) : list effect :=
  if help rc then [ShowHelp; Exit 0]
  else Listen (port rc) (Some (hostname rc)) :: bind_loop can_send attempts.

End Startup.

(** ** Sample inputs *)

Definition rc0 : options :=
  {| port := 9000; hostname := "0.0.0.0"; timeout := 5000; retryBind := 0; help := false |}.

Definition reporter : value :=
  VObj {[ "address" := VStr "10.0.0.7"; "family" := VStr "IPv4";
          "port" := VNum 51234%float ]}.

Definition quote : string := String "034"%char "".

(** The request bodies [{"services":{"web":{}}}], [{"services":[{}]}],
    [{"services":null}], [null] and [{}]. *)
Definition body_web : string :=
  "{" +:+ quote +:+ "services" +:+ quote +:+ ":{" +:+ quote +:+ "web" +:+ quote +:+ ":{}}}".
Definition body_array : string :=
  "{" +:+ quote +:+ "services" +:+ quote +:+ ":[{}]}".
Definition body_services_null : string :=
  "{" +:+ quote +:+ "services" +:+ quote +:+ ":null}".
Definition body_null : string := "null".
Definition body_query : string := "{}".

Definition report_web : value := VObj {[ "services" := VObj {[ "web" := VObj ∅ ]} ]}.
Definition report_array : value := VObj {[ "services" := VArr [VObj ∅] ∅ ]}.

(** [JSON.parse] on the bodies above; any other text is used below only as a
    text that is not JSON. *)
Definition sample_parse (text : string) : option value :=
  snd <$> find (λ p, bool_decide (p.1 = text))
    [ (body_web, report_web);
      (body_array, report_array);
      (body_services_null, VObj {[ "services" := VNull ]});
      (body_null, VNull);
      (body_query, VObj ∅) ].

(** The lemmas on sample inputs do not look into response bodies: this stands
    in for [JSON.stringify] there. *)
Definition blank_serializer (snapshot : value) : string := "".

Definition sample_runtime : runtime :=
  {| md := Sloppy; rc := rc0; JSON_parse := sample_parse;
     JSON_stringify := blank_serializer |}.


Definition post (text : string) : request :=
  {| url := "/"; method := "POST"; chunks := [text]; ending := End;
     client_address := reporter |}.

Definition broken (verb path : string) : request :=
  {| url := path; method := verb; chunks := ["{"]; ending := Error (VStr "ECONNRESET");
     client_address := reporter |}.

Definition sample_run (evs : list event) : outcome :=
  run (R := sample_runtime) init evs.

Definition sample_state (evs : list event) : tracker :=
  match sample_run evs with
  | Alive st => st
  | Crashed _ st => st
  | Unscheduled => init
  end.

Definition state_of {A} (r : result A) : tracker :=
  match r with
  | Ok _ st => st
  | Throw _ st => st
  end.

Definition stamped_web : value := VObj {[ "rinfo" := reporter ]}.

Definition sample_handle (req : request) (st : tracker) : result ServerResponse :=
  handleRequest (R := sample_runtime) req fresh_response st.

(** The answer to a request that leaves the registry of [st]. *)
Definition snapshot_response (st : tracker) : ServerResponse :=
  {| statusCode := 200; headers := [];
     body := @JSON_stringify sample_runtime (VObj (services st));
     finished := true |}.


(** A tracker with expiry disabled. *)
Definition no_expiry_runtime : runtime :=
  {| md := Sloppy;
     rc := {| port := 9000; hostname := "0.0.0.0"; timeout := 0; retryBind := 0;
              help := false |};
     JSON_parse := sample_parse; JSON_stringify := blank_serializer |}.

(** A tracker that retries every bind failure after a second. *)
Definition retrying_runtime : runtime :=
  {| md := Sloppy;
     rc := {| port := 9000; hostname := "0.0.0.0"; timeout := 5000; retryBind := 1000;
              help := false |};
     JSON_parse := sample_parse; JSON_stringify := blank_serializer |}.

(** The report of [web] in two chunks, and with the method in lower case. *)
Definition post_in_two (first second : string) : request :=
  {| url := "/"; method := "POST"; chunks := [first; second]; ending := End;
     client_address := reporter |}.

Definition post_lowercase (text : string) : request :=
  {| url := "/"; method := "post"; chunks := [text]; ending := End;
     client_address := reporter |}.

Definition other_reporter : value :=
  VObj {[ "address" := VStr "10.0.0.8"; "family" := VStr "IPv4";
          "port" := VNum 40000%float ]}.

Definition post_from (address : value) (text : string) : request :=
  {| url := "/"; method := "POST"; chunks := [text]; ending := End;
     client_address := address |}.

(** The body [{"services":{}}], and a runtime whose parser knows it too. *)
Definition body_empty_services : string :=
  "{" +:+ quote +:+ "services" +:+ quote +:+ ":{}}".

Definition wider_parse (text : string) : option value :=
  if bool_decide (text = body_empty_services)
  then Some (VObj {[ "services" := VObj ∅ ]})
  else sample_parse text.

Definition wider_runtime : runtime :=
  {| md := Sloppy; rc := rc0; JSON_parse := wider_parse;
     JSON_stringify := blank_serializer |}.

(** The states after the report of [web], and after its timer has fired. *)
Definition web_state : tracker := sample_state [Request 0 (post body_web)].

Definition web_expired_state : tracker :=
  sample_state [Request 0 (post body_web); Fire 5000 1].

Definition array_state : tracker := sample_state [Request 0 (post body_array)].

(** The report of [web] with expiry disabled. *)
Definition no_expiry_state : tracker :=
  match run (R := no_expiry_runtime) init [Request 0 (post body_web)] with
  | Alive st => st
  | Crashed _ st => st
  | Unscheduled => init
  end.

(** A report whose descriptor is a number. *)
Definition report_number : value :=
  VObj {[ "services" := VObj {[ "n" := VNum 5%float ]} ]}.

(** A request whose body stream ended, with the body in one chunk. *)
Definition whole (verb path text : string) : request :=
  {| url := path; method := verb; chunks := [text]; ending := End;
     client_address := reporter |}.

(** The bodies [{"services":{"n":5}}] and [{"services":[{},null,{}]}], and a
    runtime whose parser knows them too. *)
Definition body_number : string :=
  "{" +:+ quote +:+ "services" +:+ quote +:+ ":{" +:+ quote +:+ "n" +:+ quote +:+ ":5}}".
Definition body_array_null : string :=
  "{" +:+ quote +:+ "services" +:+ quote +:+ ":[{},null,{}]}".

Definition report_array_null : value :=
  VObj {[ "services" := VArr [VObj ∅; VNull; VObj ∅] ∅ ]}.

Definition further_parse (text : string) : option value :=
  if bool_decide (text = body_number) then Some report_number
  else if bool_decide (text = body_array_null) then Some report_array_null
  else wider_parse text.

Definition further_runtime : runtime :=
  {| md := Sloppy; rc := rc0; JSON_parse := further_parse;
     JSON_stringify := blank_serializer |}.



(** * Properties *)

Section Properties.

Context {R : runtime}.

(** ** The monad and [forEach] *)

Ltac unfold_monad :=
  unfold bind, ret, lift, gets, modify, clearTimeout, setTimeout in *; simpl in *.

Lemma forEach_cons {A} (f : A → M unit) x l st :
  forEach f (x :: l) st =
    match f x st with
    | Ok _ st' => forEach f l st'
    | Throw e st' => Throw e st'
    end.
Proof. reflexivity. Qed.

Lemma writable_set_prop v name x :
  writable v = true → ∃ v', set_prop md v name x = inr v' ∧ writable v' = true.
Proof.
  unfold writable, set_prop.
  destruct v, md; try discriminate; intros _; eexists; split; reflexivity.
Qed.



(** ** The buffered body *)

Lemma append_empty_right s : s +:+ "" = s.
Proof.
  induction s as [|c s IH]; [done|].
  change (String c (s +:+ "") = String c s). by rewrite IH.
Qed.

Lemma append_associative s1 s2 s3 : (s1 +:+ s2) +:+ s3 = s1 +:+ (s2 +:+ s3).
Proof.
  induction s1 as [|c s1 IH]; [done|].
  change (String c ((s1 +:+ s2) +:+ s3) = String c (s1 +:+ (s2 +:+ s3))).
  by rewrite IH.
Qed.

Lemma buffer_is_concatenation chunks : ∀ buffer,
  fold_left (λ buffer chunk, buffer +:+ chunk) chunks buffer
  = buffer +:+ foldr String.append "" chunks.
Proof.
  induction chunks as [|chunk chunks IH]; intros buffer; simpl.
  - by rewrite append_empty_right.
  - by rewrite IH, append_associative.
Qed.

(** The value [JSON.parse] yields in [handleRequest]: that of the chunks put
    together in order when the stream ended, none when it broke. *)
Lemma decoded_parse req :
  decoded req =
    match ending req with
    | End => JSON_parse (foldr String.append "" (chunks req))
    | Error _ => None
    end.
Proof.
  unfold decoded, bufferRequest. rewrite buffer_is_concatenation.
  by destruct (ending req).
Qed.

(** ** [updateService], one name at a time *)

Lemma updateService_run reported rinfo name st :
  updateService reported rinfo name st =
    match get reported name with
    | inl e => Throw e st
    | inr descriptor =>
        match set_prop md descriptor "rinfo" rinfo with
        | inl e => Throw e (with_services <[name := descriptor]> st)
        | inr entry => Ok tt (rearm name (with_services <[name := entry]> st))
        end
    end.
Proof.
  unfold updateService, rearm. unfold_monad.
  destruct (get reported name) as [e|d]; [reflexivity|]. simpl.
  rewrite lookup_insert_eq. simpl.
  destruct (set_prop md d "rinfo" rinfo) as [e|entry]; [reflexivity|]. simpl.
  unfold with_services; simpl. rewrite insert_insert_eq.
  destruct (truthy (timeout rc)); simpl; [|reflexivity].
  destruct (timeoutTimerIds st !! name) as [[id|]|]; reflexivity.
Qed.

(** ** Lists of timers *)









(** ** The effect of [rearm] *)

Lemma rearm_off name st : truthy (timeout rc) = false → rearm name st = st.
Proof. unfold rearm. by intros ->. Qed.

Lemma rearm_services name st : services (rearm name st) = services st.
Proof. unfold rearm. by destruct (truthy (timeout rc)). Qed.







(** ** [updateServices]: the [forEach] over the reported names *)






(** One successful round of the [forEach]. *)
Lemma updateService_ok reported rinfo name st st' :
  updateService reported rinfo name st = Ok tt st' →
  ∃ descriptor entry,
    get reported name = inr descriptor
    ∧ set_prop md descriptor "rinfo" rinfo = inr entry
    ∧ st' = rearm name (with_services <[name := entry]> st).
Proof.
  rewrite updateService_run.
  destruct (get reported name) as [e|d]; [discriminate|].
  destruct (set_prop md d "rinfo" rinfo) as [e|entry] eqn:Hset; [discriminate|].
  intros [= <-]. by exists d, entry.
Qed.



(** The [forEach] completes when every reported descriptor can be written. *)
Lemma forEach_updateService_completes reported rinfo names : ∀ st,
  (∀ n, n ∈ names → ∃ d, get reported n = inr d ∧ writable d = true) →
  ∃ st', forEach (updateService reported rinfo) names st = Ok tt st'.
Proof.
  induction names as [|name rest IH]; intros st Hall.
  - by eexists.
  - rewrite forEach_cons, updateService_run.
    destruct (Hall name) as (d & -> & Hw); [by left|].
    destruct (writable_set_prop d "rinfo" rinfo Hw) as (entry & -> & _).
    apply IH. intros n Hn. apply Hall. by right.
Qed.

(** ** [handleRequest], case by case *)

Lemma updateServices_run data rinfo st :
  updateServices data rinfo st =
    match get data "services" with
    | inl e => Throw e st
    | inr reported =>
        match Object_keys reported with
        | inl e => Throw e st
        | inr names => forEach (updateService reported rinfo) names st
        end
    end.
Proof.
  unfold updateServices. unfold_monad.
  destruct (get data "services") as [e|reported]; [reflexivity|]. simpl.
  destruct (Object_keys reported); reflexivity.
Qed.

Lemma handleRequest_run req res st :
  handleRequest req res st =
    if negb (routed req) then Ok (sendError 404 None res) st
    else match decoded req with
         | None => Ok (sendError 400 None res) st
         | Some data =>
             match get data "services" with
             | inl e => Throw e st
             | inr reported =>
                 if bool_decide (typeof reported = "object")
                 then match updateServices data (client_address req) st with
                      | Ok _ st' =>
                          Ok (res_end (Some (JSON_stringify (VObj (services st'))))
                                (set_statusCode 200 res)) st'
                      | Throw e st' => Throw e st'
                      end
                 else Ok (res_end (Some (JSON_stringify (VObj (services st))))
                            (set_statusCode 200 res)) st
             end
         end.
Proof.
  unfold handleRequest, routed, decoded.
  destruct (bufferRequest req) as [err data]. simpl.
  rewrite negb_andb.
  destruct (negb (bool_decide (url req = "/"))
            || negb (bool_decide (toUpperCase (method req) = "POST"))); [reflexivity|].
  destruct (parse_data data) as [parsed|]; [|reflexivity].
  unfold_monad.
  destruct (get parsed "services") as [e|reported]; [reflexivity|]. simpl.
  destruct (bool_decide (typeof reported = "object")); [|reflexivity].
  destruct (updateServices parsed (client_address req) st); reflexivity.
Qed.


(** ** The timer callback *)

Lemma onTimeout_run name st :
  onTimeout name st =
    match set_prop md (default VUndefined (services st !! name)) "available" (VBool false) with
    | inl e => Throw e (with_timeoutTimerIds <[name := None]> st)
    | inr entry =>
        Ok tt (with_services <[name := entry]> (with_timeoutTimerIds <[name := None]> st))
    end.
Proof.
  unfold onTimeout. unfold_monad.
  destruct (set_prop md (default VUndefined (services st !! name)) "available" (VBool false));
    reflexivity.
Qed.









(** ** Steps and schedules *)

Lemma step_Request_inv st t req st' :
  step st (Request t req) = Alive st' →
  (now st ≤ t)%Z ∧ ∃ r, handleRequest req fresh_response (with_now t st) = Ok r st'.
Proof.
  unfold step. destruct (bool_decide (now st ≤ t)%Z) eqn:Hnow; [|discriminate].
  apply bool_decide_eq_true in Hnow.
  destruct (handleRequest req fresh_response (with_now t st)) as [r st1|] eqn:Hrun;
    [|discriminate].
  intros [= <-]. eauto.
Qed.



Lemma run_cons st ev evs :
  run st (ev :: evs) =
    match step st ev with
    | Alive st' => run st' evs
    | stopped => stopped
    end.
Proof. reflexivity. Qed.

Lemma run_app st evs1 evs2 st1 :
  run st evs1 = Alive st1 → run st (evs1 ++ evs2) = run st1 evs2.
Proof.
  revert st. induction evs1 as [|ev evs1 IH]; intros st Hrun.
  - by injection Hrun as ->.
  - simpl in *. destruct (step st ev); try discriminate. by apply IH.
Qed.









(** ** Where pending timers come from *)





(** ** Objects and arrays *)

Lemma array_index_pretty i n : (i < n)%nat → array_index (pretty i) n = Some i.
Proof.
  intros Hi. unfold array_index.
  destruct (find _ (seq 0 n)) as [j|] eqn:Hfind.
  - apply find_some in Hfind as [_ Hj]. apply bool_decide_eq_true in Hj.
    f_equal. by apply (inj pretty).
  - assert (In i (seq 0 n)) as Hin by (apply in_seq; lia).
    pose proof (find_none _ _ Hfind i Hin) as Hno. simpl in Hno.
    by apply bool_decide_eq_false in Hno.
Qed.

Lemma get_array_element elems props i e :
  elems !! i = Some e → get (VArr elems props) (pretty i) = inr e.
Proof.
  intros He. simpl. rewrite array_index_pretty by by eapply lookup_lt_Some.
  by rewrite He.
Qed.

Lemma is_object_set_prop d name x :
  is_object d = true →
  set_prop md d name x =
    inr match d with
        | VObj props => VObj (<[name := x]> props)
        | VArr elems props => VArr elems (<[name := x]> props)
        | _ => d
        end.
Proof. destruct d; simpl; try discriminate; reflexivity. Qed.

Lemma field_with_field name x d : is_object d = true → field name (with_field name x d) = Some x.
Proof. destruct d; simpl; try discriminate; intros _; apply lookup_insert_eq. Qed.


(** The registry after a [forEach] that completed, without any assumption on
    the state it started from. *)
Lemma forEach_services reported rinfo names : ∀ st st',
  forEach (updateService reported rinfo) names st = Ok tt st' →
  (∀ n, n ∉ names → services st' !! n = services st !! n)
  ∧ (∀ n, n ∈ names →
       ∃ descriptor entry,
         get reported n = inr descriptor
         ∧ set_prop md descriptor "rinfo" rinfo = inr entry
         ∧ services st' !! n = Some entry).
Proof.
  induction names as [|name rest IH]; intros st st' Hrun.
  - injection Hrun as <-. split; [done|]. intros n Hn. by apply elem_of_nil in Hn.
  - rewrite forEach_cons in Hrun.
    destruct (updateService reported rinfo name st) as [[] st1|] eqn:Hone; [|discriminate].
    apply updateService_ok in Hone as (d & entry & Hget & Hset & ->).
    destruct (IH _ _ Hrun) as [Hout Hin]. rewrite rearm_services in Hout. simpl in Hout.
    split.
    + intros n [Hne Hn]%not_elem_of_cons. rewrite Hout by done. by apply lookup_insert_ne.
    + intros n Hn. destruct (decide (n ∈ rest)) as [Hrest|Hrest]; [by apply Hin|].
      apply elem_of_cons in Hn as [->|Hn]; [|done].
      exists d, entry. split_and!; try done. rewrite Hout by done. apply lookup_insert_eq.
Qed.

Lemma handleRequest_services req res st r st' :
  handleRequest req res st = Ok r st' →
  ∀ n, n ∉ reported_names req → services st' !! n = services st !! n.
Proof.
  rewrite handleRequest_run. unfold reported_names. intros Hrun.
  destruct (routed req); simpl in Hrun; [|by injection Hrun as _ <-].
  destruct (decoded req) as [data|]; [|by injection Hrun as _ <-].
  destruct (get data "services") as [e|reported] eqn:Hget; [discriminate|].
  destruct (bool_decide (typeof reported = "object")); [|by injection Hrun as _ <-].
  rewrite updateServices_run, Hget in Hrun.
  destruct (Object_keys reported) as [e|names]; [discriminate|].
  destruct (forEach _ names st) as [[] st1|] eqn:Heach; [|discriminate].
  injection Hrun as _ <-. by apply forEach_services in Heach as [Hout _].
Qed.

(** ** The registry store: merge *)


(** ** The tracker service: responses *)

Lemma routed_true req :
  routed req = true ↔ toUpperCase (method req) = "POST" ∧ url req = "/".
Proof.
  unfold routed. rewrite andb_true_iff, !bool_decide_eq_true. tauto.
Qed.

Lemma routed_false req :
  routed req = false ↔ toUpperCase (method req) ≠ "POST" ∨ url req ≠ "/".
Proof.
  unfold routed. rewrite andb_false_iff, !bool_decide_eq_false. tauto.
Qed.

(** The three ways in which [handleRequest] answers. *)
Lemma handleRequest_answers req res st r st' :
  handleRequest req res st = Ok r st' →
  (routed req = false ∧ r = sendError 404 None res ∧ st' = st)
  ∨ (routed req = true ∧ decoded req = None ∧ r = sendError 400 None res ∧ st' = st)
  ∨ (routed req = true ∧ is_Some (decoded req)
     ∧ r = res_end (Some (JSON_stringify (VObj (services st')))) (set_statusCode 200 res)).
Proof.
  rewrite handleRequest_run.
  destruct (routed req); simpl; [|intros [= <- <-]; by left].
  destruct (decoded req) as [data|]; [|intros [= <- <-]; right; by left].
  intros Hrun. right. right. split; [done|]. split; [by eexists|].
  destruct (get data "services") as [e|reported]; [discriminate|].
  destruct (bool_decide (typeof reported = "object"));
    [destruct (updateServices data (client_address req) st); [|discriminate]|];
    by injection Hrun as <- <-.
Qed.

(** C2, as amended.  A request that reaches the Respond step (route accepted,
    body decoded, merge, if any, completed) is answered with status 200 and
    the serialization of the whole registry as it is after the request; the
    handler sets no header, [Content-Type] included; entries of names the
    request does not report are those of the registry before the request. *)
Theorem respond_snapshot req st data r st' :
  routed req = true → decoded req = Some data →
  handleRequest req fresh_response st = Ok r st' →
  statusCode r = 200%Z
  ∧ body r = JSON_stringify (VObj (services st'))
  ∧ headers r = []
  ∧ finished r = true
  ∧ (∀ n, n ∉ reported_names req → services st' !! n = services st !! n).
Proof.
  intros Hroute Hdata Hrun.
  split_and!; [| | | |by eapply handleRequest_services].
  all: apply handleRequest_answers in Hrun
         as [(? & _)|[(_ & ? & _)|(_ & _ & ->)]]; [congruence..|reflexivity].
Qed.

(** C3, as amended.  A [POST /] whose body decodes to a value that is not
    [null] and whose [services] is absent or a boolean, a number or a string
    skips the merge: it is answered 200 with the snapshot of the registry,
    which is left as it was. *)
Theorem query_without_services req st data reported :
  routed req = true → decoded req = Some data →
  get data "services" = inr reported → typeof reported ≠ "object" →
  handleRequest req fresh_response st =
    Ok {| statusCode := 200; headers := [];
          body := JSON_stringify (VObj (services st)); finished := true |} st.
Proof.
  intros Hroute Hdata Hget Htype.
  rewrite handleRequest_run, Hroute, Hdata, Hget. simpl.
  by rewrite bool_decide_eq_false_2.
Qed.

(** C6.  The handler answers 404 exactly when the method is not [POST]
    (compared in upper case, as the handler does) or the URL is not [/], and
    the answer is then the ended response 404 [Not Found]; it answers 400
    exactly when the request is a [POST /] whose body, the chunks received
    put together in order, is rejected by [JSON.parse], or whose body stream
    broke, and the answer is then the ended response 400 [Bad Request]; both
    answers carry no header and leave the state as it was. *)
Theorem error_responses req st :
  ((∃ r st', handleRequest req fresh_response st = Ok r st' ∧ statusCode r = 404%Z)
   ↔ toUpperCase (method req) ≠ "POST" ∨ url req ≠ "/")
  ∧ (toUpperCase (method req) ≠ "POST" ∨ url req ≠ "/" →
     handleRequest req fresh_response st =
       Ok {| statusCode := 404; headers := []; body := "Not Found"; finished := true |} st)
  ∧ ((∃ r st', handleRequest req fresh_response st = Ok r st' ∧ statusCode r = 400%Z)
     ↔ toUpperCase (method req) = "POST" ∧ url req = "/"
       ∧ match ending req with
         | End => JSON_parse (foldr String.append "" (chunks req)) = None
         | Error _ => True
         end)
  ∧ (toUpperCase (method req) = "POST" ∧ url req = "/"
     ∧ match ending req with
       | End => JSON_parse (foldr String.append "" (chunks req)) = None
       | Error _ => True
       end →
     handleRequest req fresh_response st =
       Ok {| statusCode := 400; headers := []; body := "Bad Request"; finished := true |} st).
Proof.
  assert (decoded req = None
          ↔ match ending req with
            | End => JSON_parse (foldr String.append "" (chunks req)) = None
            | Error _ => True
            end) as Hbody.
  { rewrite decoded_parse. by destruct (ending req). }
  rewrite <- Hbody. split_and!.
  - rewrite <- routed_false. split.
    + intros (r & st' & Hrun & Hcode).
      apply handleRequest_answers in Hrun
        as [(? & _)|[(_ & _ & -> & _)|(_ & _ & ->)]]; [done|discriminate..].
    + intros Hroute. exists (sendError 404 None fresh_response), st.
      rewrite handleRequest_run, Hroute. done.
  - rewrite <- routed_false. intros Hroute.
    by rewrite handleRequest_run, Hroute.
  - rewrite (and_assoc (_ = "POST")), <- routed_true. split.
    + intros (r & st' & Hrun & Hcode).
      apply handleRequest_answers in Hrun
        as [(_ & -> & _)|[(? & ? & _)|(_ & _ & ->)]]; [discriminate|done|discriminate].
    + intros [Hroute Hdata]. exists (sendError 400 None fresh_response), st.
      rewrite handleRequest_run, Hroute, Hdata. done.
  - rewrite (and_assoc (_ = "POST")), <- routed_true. intros [Hroute Hdata].
    by rewrite handleRequest_run, Hroute, Hdata.
Qed.

(** C8, as amended.  A request whose body stream ends with an error is not
    dropped: the handler ignores the error, routes the request as any other
    and answers 404 unless it is a [POST /]; for a [POST /] the parse of the
    undefined body fails and the answer is 400.  It is never merged: the
    state is left as it was and no exception is raised. *)
Theorem transport_error_response req st err :
  ending req = Error err →
  handleRequest req fresh_response st =
    Ok (sendError (if routed req then 400 else 404) None fresh_response) st.
Proof.
  intros Herr. rewrite handleRequest_run. unfold decoded, bufferRequest.
  rewrite Herr. simpl. by destruct (routed req).
Qed.

(** C10, as amended.  A [services] field that is a JSON array passes the
    shape check ([typeof] of an array is [object]) and the names handed to
    the merge are the index names [0], [1], ... of the array; when every
    element takes the assignment of [rinfo] (none is [null]), the request is
    answered 200 with the registry holding, at each index name, the element
    of that index with its [rinfo], and the entries of all other names as
    before.  (A [null] element ends the merge with a [TypeError].) *)
Theorem array_services_merged req st data elems :
  routed req = true → decoded req = Some data →
  get data "services" = inr (VArr elems ∅) →
  typeof (VArr elems ∅) = "object"
  ∧ reported_names req = pretty <$> seq 0 (length elems)
  ∧ (Forall (λ e, writable e = true) elems →
     ∃ r st',
       handleRequest req fresh_response st = Ok r st'
       ∧ statusCode r = 200%Z
       ∧ (∀ i e, elems !! i = Some e →
            ∃ entry, set_prop md e "rinfo" (client_address req) = inr entry
                     ∧ services st' !! pretty i = Some entry)
       ∧ (∀ n, n ∉ pretty <$> seq 0 (length elems) →
            services st' !! n = services st !! n)).
Proof.
  intros Hroute Hdata Hget.
  assert (reported_names req = pretty <$> seq 0 (length elems)) as Hnames.
  { unfold reported_names. rewrite Hroute, Hdata, Hget. simpl.
    rewrite map_to_list_empty. simpl. apply app_nil_r. }
  split; [done|]. split; [done|]. intros Hw.
  rewrite handleRequest_run, Hroute, Hdata, Hget. simpl.
  rewrite updateServices_run, Hget. simpl. rewrite map_to_list_empty. simpl.
  rewrite app_nil_r.
  assert (∀ n, n ∈ pretty <$> seq 0 (length elems) →
               ∃ i e, n = pretty i ∧ elems !! i = Some e) as Hidx.
  { intros n (i & -> & Hi)%list_elem_of_fmap. apply elem_of_seq in Hi.
    destruct (lookup_lt_is_Some_2 elems i) as [e He]; [lia|]. by exists i, e. }
  destruct (forEach_updateService_completes (VArr elems ∅) (client_address req)
              (pretty <$> seq 0 (length elems)) st) as [st' Hrun].
  { intros n (i & e & -> & He)%Hidx. exists e. split; [by apply get_array_element|].
    rewrite Forall_forall in Hw. apply Hw. by eapply list_elem_of_lookup_2. }
  rewrite Hrun. eexists _, st'. split; [done|]. split; [done|].
  destruct (forEach_services _ _ _ _ _ Hrun) as [Hout Hin]. split; [|done].
  intros i e He. destruct (Hin (pretty i)) as (d & entry & Hget' & Hset & Hentry).
  { apply list_elem_of_fmap. exists i. split; [done|]. apply elem_of_seq.
    apply lookup_lt_Some in He. lia. }
  rewrite (get_array_element _ _ _ _ He) in Hget'. injection Hget' as <-.
  by exists entry.
Qed.

(** ** Expiry timers *)



Lemma timer_delay_out_of_range delay :
  (delay < 1)%Z ∨ (TIMEOUT_MAX < delay)%Z → timer_delay delay = 1%Z.
Proof.
  intros Hout. unfold timer_delay.
  destruct (Z.leb_spec 1 delay); [|reflexivity].
  destruct (Z.leb_spec delay TIMEOUT_MAX); [lia|reflexivity].
Qed.





(** ** Binding *)

(** C9, what the code does.  The handler schedules another [listen] exactly
    when the error is [EADDRINUSE] or [retryBind] is truthy, and prints the
    error exactly when neither holds.  So an address-in-use failure with a
    falsy [retryBind] is not printed: it is retried, with a delay of
    [retryBind], that is [0]. *)
Theorem bind_error_retry_condition err_code err_message :
  (onError err_code err_message = RetryListen (retryBind rc) (port rc)
   ↔ err_code = "EADDRINUSE" ∨ retryBind rc ≠ 0%Z)
  ∧ (onError err_code err_message = ReportError err_message
     ↔ err_code ≠ "EADDRINUSE" ∧ retryBind rc = 0%Z)
  ∧ onError "EADDRINUSE" err_message = RetryListen (retryBind rc) (port rc).
Proof.
  unfold onError, truthy.
  destruct (decide (err_code = "EADDRINUSE")) as [Hcode|Hcode];
    destruct (Z.eqb_spec (retryBind rc) 0) as [Hretry|Hretry].
  - rewrite bool_decide_eq_true_2 by done. simpl. split_and!; [|split|done].
    + tauto.
    + discriminate.
    + tauto.
  - rewrite bool_decide_eq_true_2 by done. simpl. split_and!; [|split|done].
    + tauto.
    + discriminate.
    + tauto.
  - rewrite bool_decide_eq_false_2 by done. simpl. split_and!; [split| |done].
    + discriminate.
    + tauto.
    + tauto.
  - rewrite bool_decide_eq_false_2 by done. simpl. split_and!; [|split|done].
    + tauto.
    + discriminate.
    + tauto.
Qed.

End Properties.

(** * Further properties of the script *)

Section Further.

Context {R : runtime}.

(** ** Body buffering and routing *)

(** How a body is cut into chunks does not matter: two requests that agree on
    the URL, the method, the way the stream ends, the client address and the
    concatenation of their chunks are handled alike. *)
Theorem chunking_is_irrelevant req1 req2 res st :
  url req1 = url req2 → method req1 = method req2 →
  ending req1 = ending req2 → client_address req1 = client_address req2 →
  foldr String.append "" (chunks req1) = foldr String.append "" (chunks req2) →
  handleRequest req1 res st = handleRequest req2 res st.
Proof.
  intros Hurl Hmethod Hend Haddr Hbody.
  assert (bufferRequest req1 = bufferRequest req2) as Hbuf.
  { unfold bufferRequest. by rewrite !buffer_is_concatenation, Hbody, Hend. }
  unfold handleRequest. by rewrite Hbuf, Hurl, Hmethod, Haddr.
Qed.

Lemma upper_ascii_idempotent c : upper_ascii (upper_ascii c) = upper_ascii c.
Proof. destruct c as [[] [] [] [] [] [] [] []]; reflexivity. Qed.

Lemma toUpperCase_idempotent s : toUpperCase (toUpperCase s) = toUpperCase s.
Proof.
  induction s as [|c s IH]; simpl; [done|]. by rewrite upper_ascii_idempotent, IH.
Qed.

(** The method counts only through its upper-case form: two requests that
    differ in the case of the letters of the method are handled alike, and a
    request is handled as the one with the method in upper case. *)
Theorem method_case_is_irrelevant req1 req2 res st :
  toUpperCase (method req1) = toUpperCase (method req2) →
  url req1 = url req2 → chunks req1 = chunks req2 →
  ending req1 = ending req2 → client_address req1 = client_address req2 →
  handleRequest req1 res st = handleRequest req2 res st
  ∧ handleRequest
      {| url := url req1; method := toUpperCase (method req1); chunks := chunks req1;
         ending := ending req1; client_address := client_address req1 |} res st
    = handleRequest req1 res st.
Proof.
  intros Hmethod Hurl Hchunks Hend Haddr.
  assert (bufferRequest req1 = bufferRequest req2) as Hbuf.
  { unfold bufferRequest. by rewrite Hchunks, Hend. }
  split.
  - unfold handleRequest. by rewrite Hbuf, Hurl, Hmethod, Haddr.
  - unfold handleRequest, bufferRequest. simpl. by rewrite toUpperCase_idempotent.
Qed.

(** ** Exceptions *)

(** A decoded body that is [null], or whose [services] is [null], ends the
    handler with a [TypeError] before anything is written: the state is the
    one before the request and no answer is sent. *)
Theorem null_body_throws req res st data :
  routed req = true → decoded req = Some data →
  data = VNull ∨ get data "services" = inr VNull →
  handleRequest req res st = Throw TypeError st.
Proof.
  intros Hroute Hdata Hnull. rewrite handleRequest_run, Hroute, Hdata. simpl.
  destruct Hnull as [->|Hget]; [reflexivity|].
  rewrite Hget. simpl. by rewrite updateServices_run, Hget.
Qed.

(** ** Reports *)

(** What an answered request was: one that ran no merge, or a [POST /] whose
    decoded [services] is an object over whose keys the [forEach] completed. *)
Lemma handleRequest_Ok_inv req res st r st' :
  handleRequest req res st = Ok r st' →
  (st' = st ∧ reported_names req = [])
  ∨ ∃ data reported,
      routed req = true ∧ decoded req = Some data
      ∧ get data "services" = inr reported
      ∧ typeof reported = "object"
      ∧ Object_keys reported = inr (reported_names req)
      ∧ forEach (updateService reported (client_address req)) (reported_names req) st
        = Ok tt st'
      ∧ r = res_end (Some (JSON_stringify (VObj (services st')))) (set_statusCode 200 res).
Proof.
  rewrite handleRequest_run. unfold reported_names.
  destruct (routed req); simpl; [|intros [= _ <-]; by left].
  destruct (decoded req) as [data|]; [|intros [= _ <-]; by left].
  destruct (get data "services") as [e|reported] eqn:Hget; [discriminate|].
  destruct (bool_decide (typeof reported = "object")) eqn:Htype;
    [|intros [= _ <-]; by left].
  rewrite updateServices_run, Hget.
  destruct (Object_keys reported) as [e|names] eqn:Hkeys; [discriminate|].
  destruct (forEach _ names st) as [[] st1|] eqn:Heach; [|discriminate].
  intros [= <- <-]. right. exists data, reported.
  apply bool_decide_eq_true in Htype. by split_and!.
Qed.



(** Two completed runs of one [forEach] agree on the reported names. *)
Lemma forEach_same_entries reported rinfo names sta sta' stb stb' n :
  forEach (updateService reported rinfo) names sta = Ok tt sta' →
  forEach (updateService reported rinfo) names stb = Ok tt stb' →
  n ∈ names → services sta' !! n = services stb' !! n.
Proof.
  intros Ha Hb Hn.
  destruct (forEach_services _ _ _ _ _ Ha) as [_ Hina].
  destruct (forEach_services _ _ _ _ _ Hb) as [_ Hinb].
  destruct (Hina n Hn) as (da & ea & Hga & Hsa & ->).
  destruct (Hinb n Hn) as (db & eb & Hgb & Hsb & ->).
  congruence.
Qed.


(** A report overwrites: the entry that a request leaves for a name it
    reports (a name other than [__proto__]) does not depend on the registry
    it found (nothing of the previous entry survives, a flipped [available]
    included); when the entry is an object its [rinfo] is the value of
    [req.client.address()] for this request. *)
Theorem report_overwrites req res sta ra sta' stb rb stb' n :
  handleRequest req res sta = Ok ra sta' →
  handleRequest req res stb = Ok rb stb' →
  n ∈ reported_names req → n ≠ "__proto__" →
  ∃ entry,
    services sta' !! n = Some entry ∧ services stb' !! n = Some entry
    ∧ (is_object entry = true → field "rinfo" entry = Some (client_address req)).
Proof.
  intros Ha Hb Hn _.
  destruct (handleRequest_Ok_inv _ _ _ _ _ Ha)
    as [[_ Hnone]|(data & reported & _ & Hdata & Hget & _ & _ & Heacha & _)].
  { rewrite Hnone in Hn. by apply elem_of_nil in Hn. }
  destruct (handleRequest_Ok_inv _ _ _ _ _ Hb)
    as [[_ Hnone]|(data' & reported' & _ & Hdata' & Hget' & _ & _ & Heachb & _)].
  { rewrite Hnone in Hn. by apply elem_of_nil in Hn. }
  assert (data' = data) as -> by congruence.
  assert (reported' = reported) as -> by congruence.
  destruct (forEach_services _ _ _ _ _ Heacha) as [_ Hina].
  destruct (Hina n Hn) as (d & entry & Hgetn & Hset & Hentry).
  exists entry. split; [done|]. split.
  - by rewrite <- (forEach_same_entries _ _ _ _ _ _ _ n Heacha Heachb).
  - intros Hobj.
    assert (is_object d = true) as Hd.
    { unfold set_prop in Hset. destruct d, md; try discriminate;
        injection Hset as <-; done. }
    rewrite is_object_set_prop in Hset by done. injection Hset as <-.
    by apply (field_with_field "rinfo").
Qed.

(** The entry a request leaves for a name it reports. *)
Lemma reported_entry req res st r st' n :
  handleRequest req res st = Ok r st' → n ∈ reported_names req →
  ∃ entry,
    services st' !! n = Some entry
    ∧ (is_object entry = true → field "rinfo" entry = Some (client_address req)).
Proof.
  intros Hrun Hn.
  destruct (handleRequest_Ok_inv _ _ _ _ _ Hrun)
    as [[_ Hnone]|(data & reported & _ & _ & _ & _ & _ & Heach & _)].
  { rewrite Hnone in Hn. by apply elem_of_nil in Hn. }
  destruct (forEach_services _ _ _ _ _ Heach) as [_ Hin].
  destruct (Hin n Hn) as (d & entry & _ & Hset & Hentry).
  exists entry. split; [done|]. intros Hobj.
  assert (is_object d = true) as Hd.
  { unfold set_prop in Hset. destruct d, md; try discriminate;
      injection Hset as <-; done. }
  rewrite is_object_set_prop in Hset by done. injection Hset as <-.
  by apply (field_with_field "rinfo").
Qed.

(** Two reports, one after the other, of names other than [__proto__]: what
    the first request reported and the second did not is kept as the first
    left it; what the second reported carries in [rinfo] the value of
    [req.client.address()] for the second request, also for a name the first
    had reported (the last report wins). *)
Theorem later_report_wins req1 req2 res st r1 st1 r2 st2 :
  handleRequest req1 res st = Ok r1 st1 →
  handleRequest req2 res st1 = Ok r2 st2 →
  (∀ n, n ∈ reported_names req1 → n ∉ reported_names req2 → n ≠ "__proto__" →
     is_Some (services st1 !! n) ∧ services st2 !! n = services st1 !! n)
  ∧ (∀ n, n ∈ reported_names req2 → n ≠ "__proto__" →
       ∃ entry,
         services st2 !! n = Some entry
         ∧ (is_object entry = true → field "rinfo" entry = Some (client_address req2))).
Proof.
  intros H1 H2. split.
  - intros n Hn1 Hn2 _. split.
    + destruct (reported_entry _ _ _ _ _ n H1 Hn1) as (entry & -> & _). by eexists.
    + by eapply handleRequest_services.
  - intros n Hn _. by eapply reported_entry.
Qed.

(** Every answer ends the response, carries no header and is one of three:
    404 with the reason phrase [Not Found], 400 with the reason phrase
    [Bad Request], both with the state left as it was, or 200 with the
    serialized registry. *)
Theorem answers_are_final req st r st' :
  handleRequest req fresh_response st = Ok r st' →
  finished r = true ∧ headers r = []
  ∧ ((statusCode r = 404%Z ∧ body r = "Not Found" ∧ st' = st)
     ∨ (statusCode r = 400%Z ∧ body r = "Bad Request" ∧ st' = st)
     ∨ (statusCode r = 200%Z ∧ body r = JSON_stringify (VObj (services st')))).
Proof.
  intros Hrun.
  apply handleRequest_answers in Hrun
    as [(_ & -> & ->)|[(_ & _ & -> & ->)|(_ & _ & ->)]]; split_and!; try done.
  - by left.
  - right. by left.
  - right. by right.
Qed.

(** A report of nothing is a query: an empty [services] object or array
    leaves the whole state, timers included, as it was and is answered 200
    with the snapshot. *)
Theorem empty_report_is_a_query req res st data reported :
  routed req = true → decoded req = Some data →
  get data "services" = inr reported →
  reported = VObj ∅ ∨ reported = VArr [] ∅ →
  handleRequest req res st
  = Ok (res_end (Some (JSON_stringify (VObj (services st)))) (set_statusCode 200 res)) st.
Proof.
  intros Hroute Hdata Hget Hempty.
  rewrite handleRequest_run, Hroute, Hdata, Hget. simpl.
  rewrite updateServices_run, Hget.
  destruct Hempty as [-> | ->]; simpl; by rewrite map_to_list_empty.
Qed.

(** A descriptor that is a number, a string or a boolean, reported under a
    name other than [__proto__]: in sloppy mode the merge completes and the
    entry is the bare value, without [rinfo]; in strict mode the assignment
    of [rinfo] throws a [TypeError], after the entry has been overwritten with
    the value. *)
Theorem primitive_descriptor data rinfo name d st :
  get data "services" = inr (VObj {[ name := d ]}) →
  is_primitive d = true → name ≠ "__proto__" →
  (md = Sloppy →
   ∃ st', updateServices data rinfo st = Ok tt st' ∧ services st' !! name = Some d)
  ∧ (md = Strict →
     ∃ st', updateServices data rinfo st = Throw TypeError st'
            ∧ services st' !! name = Some d).
Proof.
  intros Hget Hd _. rewrite updateServices_run, Hget. simpl.
  rewrite map_to_list_singleton. simpl. unfold bind.
  rewrite updateService_run. simpl. rewrite lookup_singleton_eq. simpl.
  unfold set_prop. split; intros ->.
  - destruct d; try discriminate; eexists; (split; [reflexivity|]);
      rewrite rearm_services; simpl; apply lookup_insert_eq.
  - destruct d; try discriminate; eexists; (split; [reflexivity|]);
      simpl; apply lookup_insert_eq.
Qed.

(** ** The registry over time *)

Lemma step_keeps_entries st ev st' n :
  step st ev = Alive st' → is_Some (services st !! n) → is_Some (services st' !! n).
Proof.
  intros Hstep Hn. destruct ev as [t req|t id].
  - apply step_Request_inv in Hstep as (_ & r & Hrun).
    destruct (handleRequest_Ok_inv _ _ _ _ _ Hrun)
      as [[-> _]|(data & reported & _ & _ & _ & _ & _ & Heach & _)]; [done|].
    destruct (forEach_services _ _ _ _ _ Heach) as [Hout Hin].
    destruct (decide (n ∈ reported_names req)) as [Hr|Hr].
    + destruct (Hin n Hr) as (d & entry & _ & _ & ->). by eexists.
    + by rewrite Hout.
  - unfold step in Hstep.
    destruct (find_timer id st) as [tm|]; [|discriminate].
    destruct (_ && _); [|discriminate].
    rewrite onTimeout_run in Hstep.
    destruct (set_prop md _ "available" (VBool false)) as [e|entry]; [discriminate|].
    injection Hstep as <-. simpl. rewrite lookup_insert_is_Some.
    destruct (decide (timer_name tm = n)); [by left|by right].
Qed.

(** The registry never shrinks: whatever requests are handled and whatever
    timers fire, a name that has an entry keeps one. *)
Theorem registry_never_shrinks evs : ∀ st st' n,
  run st evs = Alive st' →
  is_Some (services st !! n) → is_Some (services st' !! n).
Proof.
  induction evs as [|ev evs IH]; intros st st' n Hrun Hn.
  - by injection Hrun as <-.
  - rewrite run_cons in Hrun. destruct (step st ev) as [st1| |] eqn:Hstep; try discriminate.
    apply (IH st1 st' n Hrun). by eapply step_keeps_entries.
Qed.

Lemma forEach_without_timeout reported rinfo names : ∀ st st',
  truthy (timeout rc) = false →
  forEach (updateService reported rinfo) names st = Ok tt st' →
  timers st' = timers st ∧ timeoutTimerIds st' = timeoutTimerIds st.
Proof.
  induction names as [|name rest IH]; intros st st' Hoff Hrun.
  - by injection Hrun as <-.
  - rewrite forEach_cons in Hrun.
    destruct (updateService reported rinfo name st) as [[] st1|] eqn:Hone; [|discriminate].
    apply updateService_ok in Hone as (d & entry & _ & _ & ->).
    rewrite rearm_off in Hrun by done. by apply IH in Hrun.
Qed.

(** With [timeout] at 0 expiry is off: the tracker never arms a timer and
    never writes to [timeoutTimerIds], so no schedule contains the firing of
    a timer and no entry is ever flipped. *)
Theorem disabled_expiry evs st :
  timeout rc = 0%Z → run init evs = Alive st →
  timers st = [] ∧ timeoutTimerIds st = ∅ ∧ ∀ t id, (Fire t id ∉ evs).
Proof.
  intros Hzero.
  assert (truthy (timeout rc) = false) as Hoff by (unfold truthy; by rewrite Hzero).
  assert (∀ evs st0 st', timers st0 = [] → timeoutTimerIds st0 = ∅ →
            run st0 evs = Alive st' →
            timers st' = [] ∧ timeoutTimerIds st' = ∅ ∧ ∀ t id, (Fire t id ∉ evs)) as Hinv.
  { clear evs st. induction evs as [|ev evs IH]; intros st0 st' Ht Hs Hrun.
    - injection Hrun as <-. split_and!; try done. intros t id Hin.
      by apply elem_of_nil in Hin.
    - rewrite run_cons in Hrun.
      destruct (step st0 ev) as [st1| |] eqn:Hstep; try discriminate.
      destruct ev as [t req|t id].
      + apply step_Request_inv in Hstep as (_ & r & Hreq).
        assert (timers st1 = [] ∧ timeoutTimerIds st1 = ∅) as [Ht1 Hs1].
        { destruct (handleRequest_Ok_inv _ _ _ _ _ Hreq)
            as [[-> _]|(data & reported & _ & _ & _ & _ & _ & Heach & _)]; [by split|].
          apply (forEach_without_timeout _ _ _ _ _ Hoff) in Heach as [-> ->].
          by split. }
        destruct (IH st1 st' Ht1 Hs1 Hrun) as (? & ? & Hno).
        split_and!; try done. intros t' id [[=]|Hin]%elem_of_cons. by apply (Hno t' id).
      + unfold step, find_timer in Hstep. rewrite Ht in Hstep. discriminate. }
  intros Hrun. by apply (Hinv evs init st).
Qed.


(** ** Start-up and binding *)

(** The error of a failed bind is printed, and the script stops trying,
    only when [retryBind] is falsy and the failure is not [EADDRINUSE]; with
    a truthy [retryBind], or as long as the address is in use, every failure
    is followed by another [listen]. *)
Theorem bind_gives_up_only_on can_send attempts message :
  ConsoleError message ∈ startup can_send attempts →
  retryBind rc = 0%Z
  ∧ help rc = false
  ∧ ∃ err_code, Failed err_code message ∈ attempts ∧ err_code ≠ "EADDRINUSE".
Proof.
  unfold startup. destruct (help rc).
  { intros [[=]|[[=]|[]%elem_of_nil]%elem_of_cons]%elem_of_cons. }
  intros [[=]|Hin]%elem_of_cons.
  induction attempts as [|[|err_code err_message] rest IH]; simpl in Hin.
  - by apply elem_of_nil in Hin.
  - destruct can_send.
    + apply list_elem_of_singleton in Hin. discriminate.
    + by apply elem_of_nil in Hin.
  - unfold onError in Hin.
    destruct (bool_decide (err_code = "EADDRINUSE")) eqn:Hcode; simpl in Hin.
    { apply elem_of_cons in Hin as [[=]|[[=]|Hin]%elem_of_cons].
      destruct (IH Hin) as (? & ? & c & ? & ?). split_and!; try done.
      exists c. split; [by right|done]. }
    unfold truthy in Hin. destruct (Z.eqb_spec (retryBind rc) 0) as [Hzero|Hnz];
      simpl in Hin.
    + apply list_elem_of_singleton in Hin. injection Hin as ->.
      split_and!; try done. exists err_code. split; [by left|].
      by apply bool_decide_eq_false in Hcode.
    + apply elem_of_cons in Hin as [[=]|[[=]|Hin]%elem_of_cons].
      destruct (IH Hin) as (? & _). done.
Qed.

(** The first [listen] names the port and the host; every retry names the
    port alone, so that a retry binds all interfaces; the parent is told
    ['ready'] at most once, and only when [process.send] exists and a
    [listen] succeeded. *)
Theorem retries_drop_the_hostname can_send attempts :
  help rc = false →
  ∃ rest,
    startup can_send attempts = Listen (port rc) (Some (hostname rc)) :: rest
    ∧ (∀ on_port on_host, Listen on_port on_host ∈ rest →
         on_port = port rc ∧ on_host = None)
    ∧ (SendReady ∈ rest → can_send = true ∧ Bound ∈ attempts)
    ∧ (length (filter (λ e, e = SendReady) rest) ≤ 1)%nat.
Proof.
  intros Hhelp. unfold startup. rewrite Hhelp. eexists. split; [done|].
  induction attempts as [|[|err_code err_message] rest IH]; simpl.
  - split_and!.
    + intros p h Hin. by apply elem_of_nil in Hin.
    + intros Hin. by apply elem_of_nil in Hin.
    + simpl. lia.
  - destruct can_send; split_and!.
    + intros p h [[=]|Hin]%elem_of_cons. by apply elem_of_nil in Hin.
    + intros _. split; [done|by left].
    + vm_compute. lia.
    + intros p h Hin. by apply elem_of_nil in Hin.
    + intros Hin. by apply elem_of_nil in Hin.
    + simpl. lia.
  - destruct IH as (Hlisten & Hready & Hcount).
    destruct (onError err_code err_message) as [delay on_port|message] eqn:Herr.
    + assert (on_port = port rc) as ->.
      { unfold onError in Herr. destruct (_ || _); [by injection Herr|discriminate]. }
      split_and!.
      * intros p h [[=]|[[= -> ->]|Hin]%elem_of_cons]%elem_of_cons; [done|].
        by apply Hlisten.
      * intros [[=]|[[=]|Hin]%elem_of_cons]%elem_of_cons.
        destruct (Hready Hin). split; [done|by right].
      * rewrite !filter_cons, !decide_False by discriminate. done.
    + split_and!.
      * intros p h [[=]|Hin]%elem_of_cons. by apply elem_of_nil in Hin.
      * intros [[=]|Hin]%elem_of_cons. by apply elem_of_nil in Hin.
      * rewrite filter_cons, decide_False, filter_nil by discriminate. simpl. lia.
Qed.

End Further.

(** * The properties on sample inputs *)

#[local] Existing Instance sample_runtime.



(** C2 fails as stated: the answer to a query carries no header at all. *)
Lemma respond_sets_no_content_type :
  sample_handle (post body_query) init = Ok (snapshot_response init) init
  ∧ sample_handle (post body_web) init
    = Ok (snapshot_response (sample_state [Request 0 (post body_web)]))
        (sample_state [Request 0 (post body_web)])
  ∧ ∀ st v, (("Content-Type", v) ∉ headers (snapshot_response st)).
Proof.
  split_and!; try (vm_compute; reflexivity).
  intros st v Hin. by apply elem_of_nil in Hin.
Qed.

(** The answer to the report of [web]. *)
Lemma respond_snapshot_sample :
  statusCode (snapshot_response (sample_state [Request 0 (post body_web)])) = 200%Z
  ∧ body (snapshot_response (sample_state [Request 0 (post body_web)]))
    = JSON_stringify (VObj (services (sample_state [Request 0 (post body_web)])))
  ∧ headers (snapshot_response (sample_state [Request 0 (post body_web)])) = []
  ∧ finished (snapshot_response (sample_state [Request 0 (post body_web)])) = true
  ∧ (∀ n, n ∉ reported_names (post body_web) →
       services (sample_state [Request 0 (post body_web)]) !! n = services init !! n).
Proof.
  apply (respond_snapshot (post body_web) init report_web
           (snapshot_response (sample_state [Request 0 (post body_web)]))
           (sample_state [Request 0 (post body_web)]));
    vm_compute; reflexivity.
Defined.

(** The query [{}] against the empty registry. *)
Lemma query_without_services_sample :
  sample_handle (post body_query) init = Ok (snapshot_response init) init.
Proof.
  refine (query_without_services (post body_query) init (VObj ∅) VUndefined _ _ _ _);
    try reflexivity.
  vm_compute. discriminate.
Defined.

(** C3 fails as stated: a [services] array is no mapping, and it is merged,
    so that the registry changes; the decoded values [null] and
    [{"services": null}] end the handler with a [TypeError] and no answer. *)
Lemma services_array_is_merged :
  sample_handle (post body_array) init
    = Ok (snapshot_response (sample_state [Request 0 (post body_array)]))
        (sample_state [Request 0 (post body_array)])
  ∧ services (sample_state [Request 0 (post body_array)]) !! "0" = Some stamped_web
  ∧ services init !! "0" = None
  ∧ sample_handle (post body_null) init = Throw TypeError init
  ∧ sample_handle (post body_services_null) init = Throw TypeError init.
Proof. split_and!; vm_compute; reflexivity. Qed.





(** The answers to [GET /], to a [POST] to another URL, and to a [POST /]
    whose two chunks make a text that is not JSON; the two chunks of [{}]
    are not answered 400. *)
Lemma error_responses_sample :
  handleRequest (whole "GET" "/" "") fresh_response init
    = Ok {| statusCode := 404; headers := []; body := "Not Found"; finished := true |} init
  ∧ handleRequest (whole "POST" "/services" body_web) fresh_response init
    = Ok {| statusCode := 404; headers := []; body := "Not Found"; finished := true |} init
  ∧ handleRequest (post_in_two "{" "oops") fresh_response init
    = Ok {| statusCode := 400; headers := []; body := "Bad Request"; finished := true |} init
  ∧ ¬ (∃ r st', handleRequest (post_in_two "{" "}") fresh_response init = Ok r st'
                ∧ statusCode r = 400%Z).
Proof.
  split_and!.
  - apply (error_responses (whole "GET" "/" "") init). left. discriminate.
  - apply (error_responses (whole "POST" "/services" body_web) init). right. discriminate.
  - apply (error_responses (post_in_two "{" "oops") init). split_and!; reflexivity.
  - intros Hbad.
    apply (proj1 (proj1 (proj2 (proj2 (error_responses (post_in_two "{" "}") init))))) in Hbad
      as (_ & _ & Hparse).
    vm_compute in Hparse. discriminate.
Defined.


(** A [POST /] whose body stream breaks after its first chunk. *)
Lemma transport_error_response_sample :
  sample_handle (broken "POST" "/") init
    = Ok (sendError (if routed (broken "POST" "/") then 400 else 404) None fresh_response)
        init.
Proof.
  apply (transport_error_response (broken "POST" "/") init (VStr "ECONNRESET")).
  reflexivity.
Defined.

(** C8 fails as stated: a request whose body stream broke is still routed,
    and for a [POST /] the parse is still attempted; the answer depends on
    the route. *)
Lemma broken_request_is_routed :
  sample_handle (broken "POST" "/") init
    = Ok {| statusCode := 400; headers := []; body := "Bad Request"; finished := true |} init
  ∧ sample_handle (broken "GET" "/status") init
    = Ok {| statusCode := 404; headers := []; body := "Not Found"; finished := true |} init.
Proof. split; vm_compute; reflexivity. Qed.

(** The report [{"services":[{}]}]. *)
Lemma array_services_merged_sample :
  typeof (VArr [VObj ∅] ∅) = "object"
  ∧ reported_names (post body_array) = pretty <$> seq 0 (length [VObj ∅])
  ∧ ∃ r st',
      sample_handle (post body_array) init = Ok r st'
      ∧ statusCode r = 200%Z
      ∧ (∀ i e, [VObj ∅] !! i = Some e →
           ∃ entry, set_prop md e "rinfo" (client_address (post body_array)) = inr entry
                    ∧ services st' !! pretty i = Some entry)
      ∧ (∀ n, n ∉ pretty <$> seq 0 (length [VObj ∅]) →
           services st' !! n = services init !! n).
Proof.
  destruct (array_services_merged (post body_array) init report_array [VObj ∅])
    as (Htype & Hnames & Hmerge); try reflexivity.
  split; [exact Htype|]. split; [exact Hnames|].
  apply Hmerge. by repeat constructor.
Defined.

(** C10 fails as stated: the array [[{}, null, {}]] passes the shape check,
    but the merge stops at the [null] with a [TypeError]; the request is not
    answered, index [0] and index [1] have been written and index [2] is
    never inserted. *)
Lemma array_with_null_stops_the_merge :
  reported_names (R := further_runtime) (post body_array_null) = ["0"; "1"; "2"]
  ∧ handleRequest (R := further_runtime) (post body_array_null) fresh_response init
    = Throw TypeError
        {| services := {[ "0" := stamped_web; "1" := VNull ]};
           timeoutTimerIds := {[ "0" := Some 1 ]};
           timers := [{| timer_id := 1; deadline := 5000; timer_name := "0" |}];
           next_timer := 2; now := 0 |}
  ∧ ({[ "0" := stamped_web; "1" := VNull ]} : gmap string value) !! "2" = None
  ∧ run (R := further_runtime) init [Request 0 (post body_array_null)]
    = Crashed TypeError
        {| services := {[ "0" := stamped_web; "1" := VNull ]};
           timeoutTimerIds := {[ "0" := Some 1 ]};
           timers := [{| timer_id := 1; deadline := 5000; timer_name := "0" |}];
           next_timer := 2; now := 0 |}.
Proof. split_and!; vm_compute; reflexivity. Qed.

(** The failing input of C9: [EADDRINUSE] with [retryBind] at [0]. *)
Example address_in_use_retried_at_once :
  retryBind rc = 0%Z
  ∧ onError "EADDRINUSE" "listen EADDRINUSE" = RetryListen 0 9000
  ∧ onError "EACCES" "listen EACCES" = ReportError "listen EACCES".
Proof. split_and!; reflexivity. Qed.

(** * The further properties on sample inputs *)

(** The body [{}] in one chunk and in two. *)
Lemma chunking_is_irrelevant_sample :
  handleRequest (post_in_two "{" "}") fresh_response init
  = handleRequest (post body_query) fresh_response init.
Proof. apply chunking_is_irrelevant; reflexivity. Defined.

(** The report of [web] with the method spelled [post]. *)
Lemma method_case_is_irrelevant_sample :
  handleRequest (post_lowercase body_web) fresh_response init
  = handleRequest (post body_web) fresh_response init
  ∧ handleRequest
      {| url := url (post_lowercase body_web);
         method := toUpperCase (method (post_lowercase body_web));
         chunks := chunks (post_lowercase body_web);
         ending := ending (post_lowercase body_web);
         client_address := client_address (post_lowercase body_web) |}
      fresh_response init
    = handleRequest (post_lowercase body_web) fresh_response init.
Proof. apply method_case_is_irrelevant; reflexivity. Defined.

(** The body [{"services":null}]. *)
Lemma null_body_throws_sample :
  handleRequest (post body_services_null) fresh_response init = Throw TypeError init.
Proof.
  apply (null_body_throws (post body_services_null) fresh_response init
           (VObj {[ "services" := VNull ]})); [reflexivity..|].
  right. reflexivity.
Defined.


(** The report of [web] into the empty registry and into one that holds [0]. *)
Lemma report_overwrites_sample :
  ∃ entry,
    services web_state !! "web" = Some entry
    ∧ services (state_of (sample_handle (post body_web) array_state)) !! "web" = Some entry
    ∧ (is_object entry = true →
       field "rinfo" entry = Some (client_address (post body_web))).
Proof.
  apply (report_overwrites (post body_web) fresh_response
           init (snapshot_response web_state) web_state
           array_state
           (snapshot_response (state_of (sample_handle (post body_web) array_state)))
           (state_of (sample_handle (post body_web) array_state)) "web").
  - vm_compute. reflexivity.
  - vm_compute. reflexivity.
  - vm_compute. left.
  - discriminate.
Defined.

(** [web] reported on one connection, then [0] on another. *)
Lemma later_report_wins_sample :
  (∀ n, n ∈ reported_names (post_from reporter body_web) →
     n ∉ reported_names (post_from other_reporter body_array) →
     n ≠ "__proto__" →
     is_Some (services web_state !! n)
     ∧ services (state_of (sample_handle (post_from other_reporter body_array) web_state))
         !! n
       = services web_state !! n)
  ∧ (∀ n, n ∈ reported_names (post_from other_reporter body_array) →
       n ≠ "__proto__" →
       ∃ entry,
         services (state_of (sample_handle (post_from other_reporter body_array) web_state))
           !! n = Some entry
         ∧ (is_object entry = true →
            field "rinfo" entry
            = Some (client_address (post_from other_reporter body_array)))).
Proof.
  apply (later_report_wins (post_from reporter body_web)
           (post_from other_reporter body_array) fresh_response init
           (snapshot_response web_state) web_state
           (snapshot_response
              (state_of (sample_handle (post_from other_reporter body_array) web_state)))
           (state_of (sample_handle (post_from other_reporter body_array) web_state)));
    vm_compute; reflexivity.
Defined.

(** The query [{}]. *)
Lemma answers_are_final_sample :
  finished (snapshot_response init) = true ∧ headers (snapshot_response init) = []
  ∧ ((statusCode (snapshot_response init) = 404%Z
      ∧ body (snapshot_response init) = "Not Found" ∧ init = init)
     ∨ (statusCode (snapshot_response init) = 400%Z
        ∧ body (snapshot_response init) = "Bad Request" ∧ init = init)
     ∨ (statusCode (snapshot_response init) = 200%Z
        ∧ body (snapshot_response init) = JSON_stringify (VObj (services init)))).
Proof.
  apply (answers_are_final (post body_query) init (snapshot_response init) init).
  vm_compute. reflexivity.
Defined.

(** The body [{"services":{}}] after the report of [web]. *)
Lemma empty_report_is_a_query_sample :
  handleRequest (R := wider_runtime) (post body_empty_services) fresh_response web_state
  = Ok (res_end (Some (@JSON_stringify wider_runtime (VObj (services web_state))))
          (set_statusCode 200 fresh_response)) web_state.
Proof.
  apply (@empty_report_is_a_query wider_runtime (post body_empty_services)
           fresh_response web_state (VObj {[ "services" := VObj ∅ ]}) (VObj ∅));
    try reflexivity.
  by left.
Defined.

(** The report [{"services":{"n":5}}] in sloppy mode. *)
Lemma primitive_descriptor_sample :
  ∃ st',
    updateServices report_number reporter init = Ok tt st'
    ∧ services st' !! "n" = Some (VNum 5%float).
Proof.
  apply (primitive_descriptor report_number reporter "n" (VNum 5%float) init);
    try reflexivity.
  discriminate.
Defined.

(** [web] keeps its entry when its timer fires. *)
Lemma registry_never_shrinks_sample : is_Some (services web_expired_state !! "web").
Proof.
  apply (registry_never_shrinks [Fire 5000 1] web_state web_expired_state "web").
  - vm_compute. reflexivity.
  - eexists. vm_compute. reflexivity.
Defined.

(** The report of [web] with [timeout] at 0. *)
Lemma disabled_expiry_sample :
  timers no_expiry_state = [] ∧ timeoutTimerIds no_expiry_state = ∅
  ∧ ∀ t id, (Fire t id ∉ [Request 0 (post body_web)]).
Proof.
  apply (@disabled_expiry no_expiry_runtime [Request 0 (post body_web)] no_expiry_state).
  - reflexivity.
  - vm_compute. reflexivity.
Defined.


(** The address in use, then the permission denied, with [retryBind] at 0. *)
Lemma bind_gives_up_only_on_sample :
  retryBind rc = 0%Z
  ∧ help rc = false
  ∧ ∃ err_code,
      Failed err_code "permission denied"
        ∈ [Failed "EADDRINUSE" "address in use"; Failed "EACCES" "permission denied"]
      ∧ err_code ≠ "EADDRINUSE".
Proof.
  apply (bind_gives_up_only_on true
           [Failed "EADDRINUSE" "address in use"; Failed "EACCES" "permission denied"]
           "permission denied").
  vm_compute. repeat constructor.
Defined.

(** A failure that is retried after a second, then a bind that succeeds. *)
Lemma retries_drop_the_hostname_sample :
  ∃ rest,
    startup (R := retrying_runtime) true [Failed "EACCES" "permission denied"; Bound]
    = Listen (port (@rc retrying_runtime)) (Some (hostname (@rc retrying_runtime))) :: rest
    ∧ (∀ on_port on_host, Listen on_port on_host ∈ rest →
         on_port = port (@rc retrying_runtime) ∧ on_host = None)
    ∧ (SendReady ∈ rest →
       true = true ∧ Bound ∈ [Failed "EACCES" "permission denied"; Bound])
    ∧ (length (filter (λ e, e = SendReady) rest) ≤ 1)%nat.
Proof.
  apply (@retries_drop_the_hostname retrying_runtime true
           [Failed "EACCES" "permission denied"; Bound]).
  reflexivity.
Defined.
